(** * Brown's double exponential smoothing, as run by the two Streamlit pages

    Source files:
    - [DEPLOY_UAS/deploy2.py]: forecast years continue after the last one read;
    - [modeling1/deploy1.py]: forecast years start at the fixed year 2022.

    Both files define [modeling_page(df)], and in both the lines from
    [# DES Brown] to the four error measures are the same.  What is embedded
    is the block the page runs when its button is pressed, as a function of
    the data frame [df] and of [alpha], the value read from the slider; titles,
    tables and the plot are left out.

    The embedding follows the Python text: lists indexed by Python integers
    (a negative index counts from the end, an index out of range raises
    [IndexError]), the [for] loops as monadic folds over [range], list
    comprehensions as monadic maps, NumPy's element-wise operations as maps
    over lists.

    The arithmetic is kept behind a small interface, so that the same program
    text is read twice: over IEEE binary64 (what NumPy and Python run; the
    kernel's primitive floats) and over the real numbers extended with the
    IEEE special values (the same operations without rounding or overflow).
    Statements that need no law of arithmetic are proved for any reading;
    statements that rest on the laws of the reals are proved for the exact
    one, and binary64 runs are evaluated on concrete series. *)

From Stdlib Require Import ZArith List Bool Lia.
From Stdlib Require Import Reals Lra.
From Stdlib Require Import Floats.
From Stdlib Require String Sorted.
Import ListNotations.
Import String.StringSyntax.
Delimit Scope string_scope with string.

Set Implicit Arguments.

(** ** Python exceptions and the error monad *)

Inductive pyerr : Type :=
| IndexError
| ZeroDivisionError.

Inductive result (A : Type) : Type :=
| Ok (a : A)
| Raise (e : pyerr).

Arguments Ok {A} a.
Arguments Raise {A} e.

Definition bind {A B : Type} (c : result A) (k : A -> result B) : result B :=
  match c with
  | Ok a => k a
  | Raise e => Raise e
  end.

Notation "x <- c ;; k" := (bind c (fun x => k))
  (at level 61, c at next level, right associativity).

(** ** Python sequences *)

Local Open Scope Z_scope.

Definition len {A : Type} (l : list A) : Z := Z.of_nat (length l).

(** [l[i]]: a negative index counts from the end; out of range raises. *)
Definition getitem {A : Type} (l : list A) (i : Z) : result A :=
  let j := if i <? 0 then i + len l else i in
  if (0 <=? j) && (j <? len l) then
    match nth_error l (Z.to_nat j) with
    | Some x => Ok x
    | None => Raise IndexError
    end
  else Raise IndexError.

(** [range(lo, hi)], also [np.arange(lo, hi)] on integers. *)
Definition range (lo hi : Z) : list Z :=
  map (fun k => lo + Z.of_nat k) (seq 0 (Z.to_nat (hi - lo))).

(** [l.append(x)] *)
Definition append {A : Type} (l : list A) (x : A) : list A := l ++ [x].

(** [l[1:]] *)
Definition slice_from1 {A : Type} (l : list A) : list A := skipn 1 l.

(** [for t in ts: s = body(t, s)] *)
Fixpoint for_each {S : Type} (ts : list Z) (body : Z -> S -> result S) (s : S)
  : result S :=
  match ts with
  | [] => Ok s
  | t :: ts' => s' <- body t s ;; for_each ts' body s'
  end.

(** [[f(i) for i in ts]] *)
Fixpoint comprehension {A : Type} (ts : list Z) (f : Z -> result A)
  : result (list A) :=
  match ts with
  | [] => Ok []
  | t :: ts' => v <- f t ;; vs <- comprehension ts' f ;; Ok (v :: vs)
  end.

(** Element-wise binary operation on two arrays of the same length. *)
Fixpoint elementwise {A : Type} (op : A -> A -> A) (xs ys : list A) : list A :=
  match xs, ys with
  | x :: xs', y :: ys' => op x y :: elementwise op xs' ys'
  | _, _ => []
  end.

(** ** The arithmetic interface *)

Class Float (T : Type) : Type := {
  fadd : T -> T -> T;
  fsub : T -> T -> T;
  fmul : T -> T -> T;
  fdiv : T -> T -> T;          (* IEEE division: a zero divisor gives inf or nan *)
  fabs : T -> T;
  fsqrt : T -> T;
  of_int : Z -> T;             (* a Python int used where a float is expected *)
  nan : T;                     (* np.nan *)
  is_nan : T -> bool;
  is_zero : T -> bool;         (* x == 0.0 *)
  nan_is_nan : is_nan nan = true
}.

Declare Scope fl_scope.
Delimit Scope fl_scope with fl.
Notation "x + y" := (fadd x y) : fl_scope.
Notation "x - y" := (fsub x y) : fl_scope.
Notation "x * y" := (fmul x y) : fl_scope.
Notation "x / y" := (fdiv x y) : fl_scope.

Section Program.

Context {T : Type} {F : Float T}.

(** [x / y] on two Python floats raises on a zero divisor ([alpha], the
    slider's value, is a Python float; the arrays hold NumPy floats, whose
    division does not raise). *)
Definition pydiv (x y : T) : result T :=
  if is_zero y then Raise ZeroDivisionError else Ok (x / y)%fl.

(** [np.mean(xs)]: the sum over the count; [0.0 / 0] on an empty array.
    The sum is taken left to right.  NumPy adds arrays of eight or more
    elements pairwise: the same number over the reals and, in binary64, for
    the short arrays the binary64 statements below run on. *)
Definition np_sum (xs : list T) : T := fold_left fadd xs (of_int 0).
Definition np_mean (xs : list T) : T := (np_sum xs / of_int (len xs))%fl.

Definition np_abs (xs : list T) : list T := map fabs xs.
Definition np_square (xs : list T) : list T := map (fun x => (x * x)%fl) xs.
Definition np_sub (xs ys : list T) : list T := elementwise fsub xs ys.
Definition np_div (xs ys : list T) : list T := elementwise fdiv xs ys.

(** *** DES Brown: the two smoothing passes

<<
    S1 = [y[0]]
    S2 = [y[0]]
    for t in range(1, len(y)):
        S1.append(alpha * y[t] + (1 - alpha) * S1[t-1])
        S2.append(alpha * S1[t] + (1 - alpha) * S2[t-1])
>> *)
Definition smooth_body (alpha : T) (y : list T) (t : Z) (s : list T * list T)
  : result (list T * list T) :=
  let (S1, S2) := s in
  yt <- getitem y t ;;
  s1p <- getitem S1 (t - 1) ;;
  let S1 := append S1 (alpha * yt + (of_int 1 - alpha) * s1p)%fl in
  s1t <- getitem S1 t ;;
  s2p <- getitem S2 (t - 1) ;;
  let S2 := append S2 (alpha * s1t + (of_int 1 - alpha) * s2p)%fl in
  Ok (S1, S2).

Definition smoothing (alpha : T) (y : list T) : result (list T * list T) :=
  y0 <- getitem y 0 ;;
  let S1 := [y0] in
  y0' <- getitem y 0 ;;
  let S2 := [y0'] in
  for_each (range 1 (len y)) (smooth_body alpha y) (S1, S2).

(** *** Level and slope

<<
    a = [2*S1[i] - S2[i] for i in range(len(y))]
    b = [(alpha/(1-alpha)) * (S1[i] - S2[i]) for i in range(len(y))]
>> *)
Definition level (y S1 S2 : list T) : result (list T) :=
  comprehension (range 0 (len y)) (fun i =>
    s1 <- getitem S1 i ;;
    s2 <- getitem S2 i ;;
    Ok (of_int 2 * s1 - s2)%fl).

Definition slope (alpha : T) (y S1 S2 : list T) : result (list T) :=
  comprehension (range 0 (len y)) (fun i =>
    c <- pydiv alpha (of_int 1 - alpha)%fl ;;
    s1 <- getitem S1 i ;;
    s2 <- getitem S2 i ;;
    Ok (c * (s1 - s2))%fl).

(** *** In-sample forecast

<<
    forecast = [np.nan]
    for i in range(1, len(y)):
        forecast.append(a[i-1] + b[i-1])
>> *)
Definition forecast_body (a b : list T) (i : Z) (forecast : list T)
  : result (list T) :=
  ai <- getitem a (i - 1) ;;
  bi <- getitem b (i - 1) ;;
  Ok (append forecast (ai + bi)%fl).

Definition in_sample (y a b : list T) : result (list T) :=
  for_each (range 1 (len y)) (forecast_body a b) [nan].

(** *** Error measures

<<
    actual = y[1:]
    pred = np.array(forecast[1:])
    mae = np.mean(np.abs(actual - pred))
    mse = np.mean((actual - pred)**2)
    rmse = np.sqrt(mse)
    mape = np.mean(np.abs((actual - pred) / actual)) * 100
>> *)
Record metrics : Type := {
  mae : T;
  mse : T;
  rmse : T;
  mape : T
}.

Definition evaluate (y forecast : list T) : metrics :=
  let actual := slice_from1 y in
  let pred := slice_from1 forecast in
  let mae := np_mean (np_abs (np_sub actual pred)) in
  let mse := np_mean (np_square (np_sub actual pred)) in
  let rmse := fsqrt mse in
  let mape := (np_mean (np_abs (np_div (np_sub actual pred) actual))
               * of_int 100)%fl in
  {| mae := mae; mse := mse; rmse := rmse; mape := mape |}.

(** *** Projection beyond the data

    [future_forecast = [a[-1] + b[-1]*m for m in range(1, n_forecast + 1)]];
    [deploy2.py] writes the bound as the literal [6]. *)
Definition project (a b : list T) (n_forecast : Z) : result (list T) :=
  comprehension (range 1 (n_forecast + 1)) (fun m =>
    al <- getitem a (-1) ;;
    bl <- getitem b (-1) ;;
    Ok (al + bl * of_int m)%fl).

(** What a run of the page leaves in its local variables. *)
Record outputs : Type := {
  S1 : list T;
  S2 : list T;
  a : list T;
  b : list T;
  forecast : list T;
  scores : metrics;
  future_years : list Z;
  future_forecast : list T;
  df_future : list (Z * T)
}.

(** The lines shared by the two pages, up to the error measures. *)
Definition des_brown (alpha : T) (y : list T)
  : result (list T * list T * list T * list T * list T * metrics) :=
  s <- smoothing alpha y ;;
  let (S1, S2) := s in
  a <- level y S1 S2 ;;
  b <- slope alpha y S1 S2 ;;
  forecast <- in_sample y a b ;;
  Ok (S1, S2, a, b, forecast, evaluate y forecast).

End Program.

Arguments metrics T : clear implicits.
Arguments outputs T : clear implicits.

(** A data frame read by [load_data]: rows of (year, gini_disp).  The years
  are calendar years, kept as unbounded integers. *)
Definition frame (T : Type) : Type := list (Z * T).

(** ** [DEPLOY_UAS/deploy2.py]: the forecast continues after the last year

<<
    future_years = np.arange(tahun[-1] + 1, tahun[-1] + 6)
    future_forecast = [a[-1] + b[-1]*m for m in range(1, 6)]
>> *)
Module Deploy2.
Section Page.
Context {T : Type} {F : Float T}.

Definition modeling_page (df : frame T) (alpha : T) : result (outputs T) :=
  let tahun := map fst df in
  let y := map snd df in
  r <- des_brown alpha y ;;
  let '(S1, S2, a, b, forecast, scores) := r in
  last1 <- getitem tahun (-1) ;;
  last2 <- getitem tahun (-1) ;;
  let future_years := range (last1 + 1) (last2 + 6) in
  future_forecast <- project a b 5 ;;
  Ok {| S1 := S1; S2 := S2; a := a; b := b; forecast := forecast;
        scores := scores; future_years := future_years;
        future_forecast := future_forecast;
        df_future := combine future_years future_forecast |}.
End Page.
End Deploy2.

(** ** [modeling1/deploy1.py]: the forecast starts at a fixed year

<<
    start_year = 2022
    n_forecast = 5
    future_years = np.arange(start_year, start_year + n_forecast)
    future_forecast = [a[-1] + b[-1] * m for m in range(1, n_forecast + 1)]
>> *)
Module Deploy1.
Section Page.
Context {T : Type} {F : Float T}.

Definition start_year : Z := 2022.
Definition n_forecast : Z := 5.

Definition modeling_page (df : frame T) (alpha : T) : result (outputs T) :=
  let y := map snd df in
  r <- des_brown alpha y ;;
  let '(S1, S2, a, b, forecast, scores) := r in
  let future_years := range start_year (start_year + n_forecast) in
  future_forecast <- project a b n_forecast ;;
  Ok {| S1 := S1; S2 := S2; a := a; b := b; forecast := forecast;
        scores := scores; future_years := future_years;
        future_forecast := future_forecast;
        df_future := combine future_years future_forecast |}.
End Page.
End Deploy1.

(** ** IEEE binary64: the arithmetic NumPy and Python floats run

    The integers the pages turn into floats (0, 1, 2, 100, a step [m], a
    count of rows) are far below [2^53], where the conversion is exact. *)

Definition float_of_int (z : Z) : float :=
  match z with
  | Z0 => PrimFloat.zero
  | Zpos _ => PrimFloat.of_uint63 (Uint63.of_Z z)
  | Zneg p => PrimFloat.opp (PrimFloat.of_uint63 (Uint63.of_Z (Zpos p)))
  end.

#[export] Instance binary64 : Float float := {
  fadd := PrimFloat.add;
  fsub := PrimFloat.sub;
  fmul := PrimFloat.mul;
  fdiv := PrimFloat.div;
  fabs := PrimFloat.abs;
  fsqrt := PrimFloat.sqrt;
  of_int := float_of_int;
  nan := PrimFloat.nan;
  is_nan := PrimFloat.is_nan;
  is_zero := fun x => PrimFloat.eqb x PrimFloat.zero;
  nan_is_nan := eq_refl
}.

(** ** The reals with the IEEE special values: binary64 without rounding

    The same operations with every finite result exact: no rounding and no
    overflow.  Division by zero, [0/0], [inf - inf], [0 * inf] and the square
    root of a negative number give what IEEE 754 gives.  There is one zero
    (IEEE's [-0.0] is read as [0]). *)

Inductive xreal : Type :=
| Fin (r : R)
| Inf (negative : bool)
| NaN.

Definition Rneg (r : R) : bool := if Rlt_dec r 0 then true else false.
Definition Rzero (r : R) : bool := if Req_dec_T r 0 then true else false.

Definition xadd (x y : xreal) : xreal :=
  match x, y with
  | Fin p, Fin q => Fin (p + q)
  | Fin _, Inf s => Inf s
  | Inf s, Fin _ => Inf s
  | Inf s, Inf s' => if Bool.eqb s s' then Inf s else NaN
  | _, _ => NaN
  end.

Definition xsub (x y : xreal) : xreal :=
  match x, y with
  | Fin p, Fin q => Fin (p - q)
  | Fin _, Inf s => Inf (negb s)
  | Inf s, Fin _ => Inf s
  | Inf s, Inf s' => if Bool.eqb s s' then NaN else Inf s
  | _, _ => NaN
  end.

Definition xmul (x y : xreal) : xreal :=
  match x, y with
  | Fin p, Fin q => Fin (p * q)
  | Fin p, Inf s => if Rzero p then NaN else Inf (xorb (Rneg p) s)
  | Inf s, Fin q => if Rzero q then NaN else Inf (xorb s (Rneg q))
  | Inf s, Inf s' => Inf (xorb s s')
  | _, _ => NaN
  end.

Definition xdiv (x y : xreal) : xreal :=
  match x, y with
  | Fin p, Fin q =>
      if Rzero q then (if Rzero p then NaN else Inf (Rneg p))
      else Fin (p / q)
  | Fin _, Inf _ => Fin 0
  | Inf s, Fin q => Inf (xorb s (Rneg q))
  | _, _ => NaN
  end.

Definition xabs (x : xreal) : xreal :=
  match x with
  | Fin p => Fin (Rabs p)
  | Inf _ => Inf false
  | NaN => NaN
  end.

Definition xsqrt (x : xreal) : xreal :=
  match x with
  | Fin p => if Rneg p then NaN else Fin (R_sqrt.sqrt p)
  | Inf false => Inf false
  | _ => NaN
  end.

Definition xis_nan (x : xreal) : bool :=
  match x with NaN => true | _ => false end.

Definition xis_zero (x : xreal) : bool :=
  match x with Fin p => Rzero p | _ => false end.

#[export] Instance exact : Float xreal := {
  fadd := xadd;
  fsub := xsub;
  fmul := xmul;
  fdiv := xdiv;
  fabs := xabs;
  fsqrt := xsqrt;
  of_int := fun z => Fin (IZR z);
  nan := NaN;
  is_nan := xis_nan;
  is_zero := xis_zero;
  nan_is_nan := eq_refl
}.


(** ** The pages and the data of the examples *)

(** The two pages by name, and [modeling_page] of either. *)
Inductive page : Type :=
| deploy2     (* DEPLOY_UAS/deploy2.py: continuation *)
| deploy1.    (* modeling1/deploy1.py: fixed start *)

Definition modeling_page {T : Type} {F : Float T} (p : page)
  : frame T -> T -> result (outputs T) :=
  match p with
  | deploy2 => Deploy2.modeling_page
  | deploy1 => Deploy1.modeling_page
  end.

Set Warnings "-inexact-float".

(** The series of the worked example, in binary64. *)
Definition example_frame : frame float :=
  [(2018, 0.60%float); (2019, 0.62%float);
   (2020, 0.59%float); (2021, 0.63%float)].

(** The table lines of the pages with the horizon left open: [deploy1.py]
    names it [n_forecast] (and sets it to 5), [deploy2.py] writes 5 into its
    literals ([+ 6], [range(1, 6)]).  [first] is the first forecast year. *)
Definition future_table {T : Type} {F : Float T}
           (first horizon : Z) (la lb : list T) : result (list (Z * T)) :=
  ff <- project la lb horizon ;;
  Ok (combine (range first (first + horizon)) ff).

(** The first forecast year of a page, given the last year read. *)
Definition first_year (p : page) (last : Z) : Z :=
  match p with
  | deploy2 => last + 1
  | deploy1 => Deploy1.start_year
  end.


(** [alpha = st.slider("Nilai Alpha", 0.1, 0.9, 0.8)]: the value the page
    receives lies between the bounds of the slider. *)
Definition slider_min : R := 0.1.
Definition slider_max : R := 0.9.
Definition slider_value (r : R) : Prop := (slider_min <= r <= slider_max)%R.

(** In binary64 the slider moves in steps of 0.01 (Streamlit's default for
    float bounds): its values are the floats nearest to [k/100], for [k]
    from 10 to 90. *)
Definition slider_step (k : Z) : float :=
  PrimFloat.div (float_of_int k) (float_of_int 100).

(** The same series over the reals. *)
Definition example_frame_exact : frame xreal :=
  [(2018, Fin 0.60); (2019, Fin 0.62); (2020, Fin 0.59); (2021, Fin 0.63)].

(** [|x - v| < 1e-9], tested in binary64. *)
Definition within_tolerance (x v : float) : bool :=
  PrimFloat.ltb (PrimFloat.abs (PrimFloat.sub x v)) 1e-9%float.

(** ** Properties read on the lists of a run *)

Section Readings.
Context {T : Type} {F : Float T}.
Implicit Types (alpha : T) (y : list T).

(** The two smoothing equations at index [t], read on the lists of a run. *)
Definition recurrence_at alpha y (s1 s2 : list T) (t : Z) : Prop :=
  exists yt p1 v1 p2 v2,
    getitem y t = Ok yt /\
    getitem s1 (t - 1) = Ok p1 /\ getitem s1 t = Ok v1 /\
    getitem s2 (t - 1) = Ok p2 /\ getitem s2 t = Ok v2 /\
    v1 = (alpha * yt + (of_int 1 - alpha) * p1)%fl /\
    v2 = (alpha * v1 + (of_int 1 - alpha) * p2)%fl.

(** Level and slope at index [i]. *)
Definition coefficients_at alpha (s1 s2 la lb : list T) (i : Z) : Prop :=
  exists v1 v2 ai bi,
    getitem s1 i = Ok v1 /\ getitem s2 i = Ok v2 /\
    getitem la i = Ok ai /\ getitem lb i = Ok bi /\
    ai = (of_int 2 * v1 - v2)%fl /\
    bi = ((alpha / (of_int 1 - alpha)) * (v1 - v2))%fl.

(** The in-sample forecast at index [i >= 1]. *)
Definition forecast_at (la lb fc : list T) (i : Z) : Prop :=
  exists ai bi,
    getitem la (i - 1) = Ok ai /\ getitem lb (i - 1) = Ok bi /\
    getitem fc i = Ok (ai + bi)%fl.

(** Everything the shared lines establish about their lists. *)
Record des_spec alpha y (s1 s2 la lb fc : list T) : Prop := {
  spec_len_S1 : len s1 = len y;
  spec_len_S2 : len s2 = len y;
  spec_len_a : len la = len y;
  spec_len_b : len lb = len y;
  spec_len_forecast : len fc = len y;
  spec_seed_S1 : getitem s1 0 = getitem y 0;
  spec_seed_S2 : getitem s2 0 = getitem y 0;
  spec_recurrence : forall t, 1 <= t < len y -> recurrence_at alpha y s1 s2 t;
  spec_coefficients :
    forall i, 0 <= i < len y -> coefficients_at alpha s1 s2 la lb i;
  spec_forecast0 : getitem fc 0 = Ok nan;
  spec_forecast : forall i, 1 <= i < len y -> forecast_at la lb fc i
}.

End Readings.




(** ** [load_data]: finding the year and the Gini column

    After [df.columns = df.columns.str.strip().str.lower()] the function
    looks for its two columns by name.  [columns] below is [df.columns] at
    that point, in the order of the file.

<<
    year_col = None
    for c in df.columns:
        if "year" in c or "tahun" in c or "time" in c:
            year_col = c
            break

    gini_col = None
    for c in df.columns:
        if "gini" in c:
            gini_col = c
            break

    if year_col is None or gini_col is None:
        st.error(...)
        st.stop()
>> *)

(** [needle in c] on two Python strings: [needle] occurs somewhere in [c]. *)
Fixpoint contains (needle c : String.string) : bool :=
  if String.prefix needle c then true
  else match c with
       | String.EmptyString => false
       | String.String _ c' => contains needle c'
       end.

Definition names_year (c : String.string) : bool :=
  contains "year"%string c || contains "tahun"%string c
  || contains "time"%string c.

Definition names_gini (c : String.string) : bool := contains "gini"%string c.

(** [col = None; for c in columns: if test(c): col = c; break] *)
Fixpoint first_column (test : String.string -> bool)
         (columns : list String.string) : option String.string :=
  match columns with
  | [] => None
  | c :: rest => if test c then Some c else first_column test rest
  end.

Definition year_col (columns : list String.string) : option String.string :=
  first_column names_year columns.

Definition gini_col (columns : list String.string) : option String.string :=
  first_column names_gini columns.

(** The pair the function goes on with; [None] is the page stopped by
    [st.stop()] after the error message. *)
Definition detect_columns (columns : list String.string)
  : option (String.string * String.string) :=
  match year_col columns, gini_col columns with
  | Some yc, Some gc => Some (yc, gc)
  | _, _ => None
  end.

(** [needle] is a substring of [c]: the meaning of Python's [needle in c]. *)
Definition occurs (needle c : String.string) : Prop :=
  exists u v, c = String.append u (String.append needle v).

(** [df.rename(columns={year_col: "year", gini_col: "gini_disp"})], on the
    column labels: a label that is a key of the dict is replaced by its
    value, every other label is kept.  The dict display is evaluated left to
    right, so when both keys are the same string the entry of [gini_col]
    replaces the entry of [year_col]. *)
Definition renaming (yc gc c : String.string) : option String.string :=
  if String.eqb c gc then Some "gini_disp"%string
  else if String.eqb c yc then Some "year"%string
  else None.

Definition rename (yc gc : String.string) (columns : list String.string)
  : list String.string :=
  map (fun c => match renaming yc gc c with
                | Some label => label
                | None => c
                end) columns.

(** ** [modeling_page]: what is handed to the plot

    [deploy2.py] plots [list(tahun) + list(future_years)] against
    [list(forecast) + list(future_forecast)]; [deploy1.py] builds the same
    two sequences with [np.concatenate] and names them as below. *)
Definition plot_years {T : Type} (df : frame T) (out : outputs T) : list Z :=
  map fst df ++ future_years out.

Definition plot_values {T : Type} (out : outputs T) : list T :=
  forecast out ++ future_forecast out.

(** What the two pages compute alike: everything but the forecast years. *)
Definition forecast_part {T : Type} (out : outputs T)
  : list T * list T * list T * list T * list T * metrics T * list T :=
  (S1 out, S2 out, a out, b out, forecast out, scores out,
   future_forecast out).

Definition map_result {A B : Type} (f : A -> B) (r : result A) : result B :=
  match r with
  | Ok x => Ok (f x)
  | Raise e => Raise e
  end.

(** ** Facts about Python sequences *)

Section Sequences.
Context {A : Type}.
Implicit Types (l : list A) (x : A) (i : Z).

Lemma len_nonneg l : 0 <= len l.
Proof. unfold len; lia. Qed.

Lemma len_nil : len (@nil A) = 0.
Proof. reflexivity. Qed.

Lemma len_cons x l : len (x :: l) = len l + 1.
Proof. unfold len; cbn [length]; lia. Qed.

Lemma len_append l x : len (append l x) = len l + 1.
Proof. unfold len, append; rewrite length_app; cbn [length]; lia. Qed.

  (** Inside the bounds an index reads what [nth_error] reads. *)
Lemma getitem_Ok l i x :
    0 <= i -> (getitem l i = Ok x <-> nth_error l (Z.to_nat i) = Some x).
Proof.
    intros Hi. unfold getitem.
    destruct (i <? 0) eqn:Hneg; [lia|].
    destruct (0 <=? i) eqn:H0; [|lia]. cbn [andb].
    destruct (i <? len l) eqn:Hlt.
    - destruct (nth_error l (Z.to_nat i)); split; intros E;
        inversion E; subst; reflexivity.
    - split; [discriminate|]. intros E.
      assert (nth_error l (Z.to_nat i) <> None) as N by congruence.
      apply nth_error_Some in N. unfold len in Hlt. lia.
Qed.

Lemma getitem_in_range l i :
    0 <= i < len l -> exists x, getitem l i = Ok x.
Proof.
    intros Hi. destruct (nth_error l (Z.to_nat i)) as [x|] eqn:E.
    - exists x. apply getitem_Ok; [lia | exact E].
    - apply nth_error_None in E. unfold len in Hi. lia.
Qed.



Lemma getitem_head x l : getitem (x :: l) 0 = Ok x.
Proof. apply getitem_Ok; [lia | reflexivity]. Qed.

Lemma getitem_tail x l i :
    0 <= i -> getitem (x :: l) (i + 1) = getitem l i.
Proof.
    intros Hi. unfold getitem. rewrite len_cons.
    replace (i + 1 <? 0) with false by lia.
    replace (i <? 0) with false by lia.
    replace (0 <=? i + 1) with true by lia.
    replace (0 <=? i) with true by lia.
    replace (i + 1 <? len l + 1) with (i <? len l) by lia.
    replace (Z.to_nat (i + 1)) with (S (Z.to_nat i)) by lia.
    reflexivity.
Qed.

  (** Appending leaves the earlier entries where they were. *)
Lemma getitem_append_old l x i :
    0 <= i < len l -> getitem (append l x) i = getitem l i.
Proof.
    intros Hi. destruct (getitem_in_range l Hi) as [v Hv].
    rewrite Hv. apply getitem_Ok; [lia|].
    apply getitem_Ok in Hv; [|lia].
    unfold append. rewrite nth_error_app1; [exact Hv|].
    unfold len in Hi. lia.
Qed.

Lemma getitem_append_new l x : getitem (append l x) (len l) = Ok x.
Proof.
    apply getitem_Ok; [apply len_nonneg|].
    unfold append, len. rewrite Nat2Z.id.
    rewrite nth_error_app2 by lia.
    rewrite Nat.sub_diag. reflexivity.
Qed.

  (** [l[-1]] is the last entry. *)
Lemma getitem_last l :
    1 <= len l -> getitem l (-1) = getitem l (len l - 1).
Proof.
    intros Hl. unfold getitem.
    replace (-1 <? 0) with true by lia.
    replace (len l - 1 <? 0) with false by lia.
    replace (-1 + len l) with (len l - 1) by lia.
    reflexivity.
Qed.




End Sequences.

Lemma getitem_second {A : Type} (x x' : A) (l : list A) :
  getitem (x :: x' :: l) 1 = Ok x'.
Proof.
  change 1 with (0 + 1). rewrite getitem_tail by lia. apply getitem_head.
Qed.

Lemma range_nil lo hi : hi <= lo -> range lo hi = [].
Proof.
  intros H. unfold range. replace (Z.to_nat (hi - lo)) with 0%nat by lia.
  reflexivity.
Qed.

Lemma range_cons lo hi : lo < hi -> range lo hi = lo :: range (lo + 1) hi.
Proof.
  intros H. unfold range.
  replace (Z.to_nat (hi - lo)) with (S (Z.to_nat (hi - (lo + 1)))) by lia.
  cbn [seq map]. f_equal; [lia|].
  rewrite <- seq_shift, map_map.
  apply map_ext. intros k. lia.
Qed.

Lemma len_range lo hi : lo <= hi -> len (range lo hi) = hi - lo.
Proof.
  intros H. unfold len, range. rewrite length_map, length_seq. lia.
Qed.


(** ** Loops and comprehensions over a range *)

(** A [for] loop over [range(lo, hi)] whose body keeps an invariant runs to
    its end without raising and leaves the invariant at [hi]. *)
Lemma for_each_range_invariant {S : Type} (Inv : Z -> S -> Prop)
      (body : Z -> S -> result S) (lo hi : Z) (s : S) :
  lo <= hi ->
  Inv lo s ->
  (forall t s, lo <= t < hi -> Inv t s ->
               exists s', body t s = Ok s' /\ Inv (t + 1) s') ->
  exists s', for_each (range lo hi) body s = Ok s' /\ Inv hi s'.
Proof.
  intros Hle. remember (Z.to_nat (hi - lo)) as n eqn:En.
  revert lo s Hle En. induction n as [|n IH]; intros lo s Hle En H0 Hstep.
  - assert (lo = hi) by lia. subst lo.
    rewrite range_nil by lia. exists s. split; [reflexivity | exact H0].
  - rewrite range_cons by lia. cbn [for_each].
    destruct (Hstep lo s) as (s1 & E1 & I1); [lia | exact H0 |].
    rewrite E1. cbn [bind].
    apply IH; [lia | lia | exact I1 |].
    intros t s2 Ht. apply Hstep. lia.
Qed.

(** A comprehension over [range(lo, hi)] whose element never raises gives
    the list of the elements, in the order of the range. *)
Lemma comprehension_range {A : Type} (f : Z -> result A)
      (P : Z -> A -> Prop) (lo hi : Z) :
  lo <= hi ->
  (forall i, lo <= i < hi -> exists v, f i = Ok v /\ P i v) ->
  exists l, comprehension (range lo hi) f = Ok l /\
            len l = hi - lo /\
            forall i, lo <= i < hi ->
                      exists v, getitem l (i - lo) = Ok v /\ P i v.
Proof.
  intros Hle. remember (Z.to_nat (hi - lo)) as n eqn:En.
  revert lo Hle En. induction n as [|n IH]; intros lo Hle En Hf.
  - rewrite range_nil by lia. exists []. repeat split; [rewrite len_nil; lia|].
    intros i Hi. lia.
  - rewrite range_cons by lia. cbn [comprehension].
    destruct (Hf lo) as (v & Ev & Pv); [lia|].
    destruct (IH (lo + 1)) as (l & El & Ll & Hl); [lia | lia | |].
    { intros i Hi. apply Hf. lia. }
    rewrite Ev. cbn [bind]. rewrite El. cbn [bind].
    exists (v :: l). repeat split.
    + rewrite len_cons. lia.
    + intros i Hi. destruct (Z.eq_dec i lo) as [->|Hne].
      * exists v. rewrite Z.sub_diag, getitem_head. auto.
      * destruct (Hl i) as (w & Ew & Pw); [lia|].
        exists w. split; [|exact Pw].
        replace (i - lo) with (i - (lo + 1) + 1) by lia.
        rewrite getitem_tail by lia. exact Ew.
Qed.

(** Splits on [comprehension_range] for the comprehension in the goal. *)
Ltac comprehension_over lo hi P pat :=
  match goal with
  | |- context [comprehension (range lo hi) ?f] =>
      destruct (@comprehension_range _ f P lo hi) as pat
  end.

(** A comprehension raises what its first element raises. *)
Lemma comprehension_raises {A : Type} (f : Z -> result A) (lo hi : Z) e :
  lo < hi -> f lo = Raise e -> comprehension (range lo hi) f = Raise e.
Proof.
  intros Hlt Ef. rewrite range_cons by lia. cbn [comprehension].
  rewrite Ef. reflexivity.
Qed.

(** ** What a run computes, for any arithmetic *)

Section Specification.
Context {T : Type} {F : Float T}.
Implicit Types (alpha : T) (y : list T).

Lemma smoothing_spec alpha y :
  1 <= len y ->
  exists s1 s2,
    smoothing alpha y = Ok (s1, s2) /\
    len s1 = len y /\ len s2 = len y /\
    getitem s1 0 = getitem y 0 /\ getitem s2 0 = getitem y 0 /\
    forall t, 1 <= t < len y -> recurrence_at alpha y s1 s2 t.
Proof.
  intros Hn. unfold smoothing.
  destruct (@getitem_in_range _ y 0) as [y0 E0]; [lia|].
  rewrite E0. cbn [bind].
  pose (Inv := fun (t : Z) (s : list T * list T) =>
    len (fst s) = t /\ len (snd s) = t /\
    getitem (fst s) 0 = Ok y0 /\ getitem (snd s) 0 = Ok y0 /\
    forall k, 1 <= k < t -> recurrence_at alpha y (fst s) (snd s) k).
  destruct (@for_each_range_invariant _ Inv (smooth_body alpha y) 1 (len y)
              ([y0], [y0])) as ([s1 s2] & Erun & L1 & L2 & H1 & H2 & Hrec).
  - exact Hn.
  - unfold Inv; cbn [fst snd]. rewrite len_cons, len_nil, getitem_head.
    repeat split; try reflexivity. intros k Hk; lia.
  - intros t [s1 s2] Ht (L1 & L2 & H1 & H2 & Hrec). cbn [fst snd] in *.
    unfold smooth_body.
    destruct (@getitem_in_range _ y t) as [yt Eyt]; [lia|].
    destruct (@getitem_in_range _ s1 (t - 1)) as [p1 Ep1]; [lia|].
    destruct (@getitem_in_range _ s2 (t - 1)) as [p2 Ep2]; [lia|].
    set (v1 := (alpha * yt + (of_int 1 - alpha) * p1)%fl).
    set (v2 := (alpha * v1 + (of_int 1 - alpha) * p2)%fl).
    assert (N1 : getitem (append s1 v1) t = Ok v1)
      by (rewrite <- L1; apply getitem_append_new).
    assert (N2 : getitem (append s2 v2) t = Ok v2)
      by (rewrite <- L2; apply getitem_append_new).
    rewrite Eyt. cbn [bind]. rewrite Ep1. cbn [bind]. fold v1.
    rewrite N1. cbn [bind]. rewrite Ep2. cbn [bind]. fold v2.
    eexists. split; [reflexivity|].
    unfold Inv; cbn [fst snd]. rewrite !len_append.
    repeat split; try lia.
    + rewrite getitem_append_old by lia. exact H1.
    + rewrite getitem_append_old by lia. exact H2.
    + intros k Hk. destruct (Z.eq_dec k t) as [->|Hne].
      * exists yt, p1, v1, p2, v2.
        rewrite N1, N2, !getitem_append_old by lia. tauto.
      * destruct (Hrec k) as (yk & q1 & w1 & q2 & w2 & A & B & C & D & E & G);
          [lia|].
        exists yk, q1, w1, q2, w2.
        rewrite !getitem_append_old by lia. tauto.
  - exists s1, s2. cbn [fst snd] in *. tauto.
Qed.

Lemma level_spec y (s1 s2 : list T) :
  len s1 = len y -> len s2 = len y ->
  exists la,
    level y s1 s2 = Ok la /\ len la = len y /\
    forall i, 0 <= i < len y ->
      exists v1 v2, getitem s1 i = Ok v1 /\ getitem s2 i = Ok v2 /\
                    getitem la i = Ok (of_int 2 * v1 - v2)%fl.
Proof.
  intros L1 L2. unfold level.
  comprehension_over 0 (len y)
    (fun (i : Z) (v : T) => exists v1 v2, getitem s1 i = Ok v1 /\
       getitem s2 i = Ok v2 /\ v = (of_int 2 * v1 - v2)%fl)
    ipattern:((la & Ea & La & Ha)).
  - apply len_nonneg.
  - intros i Hi.
    destruct (@getitem_in_range _ s1 i) as [v1 E1]; [lia|].
    destruct (@getitem_in_range _ s2 i) as [v2 E2]; [lia|].
    exists (of_int 2 * v1 - v2)%fl. split; [|eauto].
    cbv beta. rewrite E1. cbn [bind]. rewrite E2. reflexivity.
  - exists la. split; [exact Ea|]. split; [lia|].
    intros i Hi. destruct (Ha i Hi) as (v & Ev & v1 & v2 & E1 & E2 & ->).
    rewrite Z.sub_0_r in Ev. eauto.
Qed.

Lemma slope_spec alpha y (s1 s2 : list T) :
  is_zero (of_int 1 - alpha)%fl = false ->
  len s1 = len y -> len s2 = len y ->
  exists lb,
    slope alpha y s1 s2 = Ok lb /\ len lb = len y /\
    forall i, 0 <= i < len y ->
      exists v1 v2, getitem s1 i = Ok v1 /\ getitem s2 i = Ok v2 /\
        getitem lb i = Ok ((alpha / (of_int 1 - alpha)) * (v1 - v2))%fl.
Proof.
  intros Hz L1 L2. unfold slope.
  comprehension_over 0 (len y)
    (fun (i : Z) (v : T) => exists v1 v2, getitem s1 i = Ok v1 /\
       getitem s2 i = Ok v2 /\
       v = ((alpha / (of_int 1 - alpha)) * (v1 - v2))%fl)
    ipattern:((lb & Eb & Lb & Hb)).
  - apply len_nonneg.
  - intros i Hi.
    destruct (@getitem_in_range _ s1 i) as [v1 E1]; [lia|].
    destruct (@getitem_in_range _ s2 i) as [v2 E2]; [lia|].
    eexists. split; [|exists v1, v2; repeat split; eauto].
    cbv beta. unfold pydiv. rewrite Hz. cbn [bind].
    rewrite E1. cbn [bind]. rewrite E2. reflexivity.
  - exists lb. split; [exact Eb|]. split; [lia|].
    intros i Hi. destruct (Hb i Hi) as (v & Ev & v1 & v2 & E1 & E2 & ->).
    rewrite Z.sub_0_r in Ev. eauto.
Qed.

(** With [1 - alpha == 0.0] the first slope raises. *)
Lemma slope_raises alpha y (s1 s2 : list T) :
  1 <= len y ->
  is_zero (of_int 1 - alpha)%fl = true ->
  slope alpha y s1 s2 = Raise ZeroDivisionError.
Proof.
  intros Hn Hz. unfold slope. apply comprehension_raises; [lia|].
  unfold pydiv. rewrite Hz. reflexivity.
Qed.

Lemma in_sample_spec y (la lb : list T) :
  1 <= len y -> len la = len y -> len lb = len y ->
  exists fc,
    in_sample y la lb = Ok fc /\ len fc = len y /\
    getitem fc 0 = Ok nan /\
    forall i, 1 <= i < len y -> forecast_at la lb fc i.
Proof.
  intros Hn La Lb. unfold in_sample.
  pose (Inv := fun (t : Z) (fc : list T) =>
    len fc = t /\ getitem fc 0 = Ok nan /\
    forall k, 1 <= k < t -> forecast_at la lb fc k).
  destruct (@for_each_range_invariant _ Inv (forecast_body la lb) 1 (len y)
              [nan]) as (fc & Erun & Lf & H0 & Hf).
  - exact Hn.
  - unfold Inv. rewrite len_cons, len_nil, getitem_head.
    repeat split. intros k Hk; lia.
  - intros t fc Ht (Lf & H0 & Hf). unfold forecast_body.
    destruct (@getitem_in_range _ la (t - 1)) as [ai Ea]; [lia|].
    destruct (@getitem_in_range _ lb (t - 1)) as [bi Eb]; [lia|].
    rewrite Ea. cbn [bind]. rewrite Eb. cbn [bind].
    eexists. split; [reflexivity|].
    unfold Inv. rewrite len_append. repeat split; [lia | |].
    + rewrite getitem_append_old by lia. exact H0.
    + intros k Hk. destruct (Z.eq_dec k t) as [->|Hne].
      * exists ai, bi. repeat split; try assumption.
        rewrite <- Lf. apply getitem_append_new.
      * destruct (Hf k) as (ak & bk & A & B & C); [lia|].
        exists ak, bk. rewrite getitem_append_old by lia. tauto.
  - exists fc. tauto.
Qed.

Lemma project_spec (la lb : list T) (n_forecast : Z) :
  1 <= len la -> 1 <= len lb -> 0 <= n_forecast ->
  exists ff al bl,
    project la lb n_forecast = Ok ff /\
    getitem la (len la - 1) = Ok al /\ getitem lb (len lb - 1) = Ok bl /\
    len ff = n_forecast /\
    forall m, 1 <= m <= n_forecast ->
              getitem ff (m - 1) = Ok (al + bl * of_int m)%fl.
Proof.
  intros La Lb Hn. unfold project.
  destruct (@getitem_in_range _ la (len la - 1)) as [al Ea]; [lia|].
  destruct (@getitem_in_range _ lb (len lb - 1)) as [bl Eb]; [lia|].
  comprehension_over 1 (n_forecast + 1)
    (fun (m : Z) (v : T) => v = (al + bl * of_int m)%fl)
    ipattern:((ff & Ef & Lf & Hf)).
  - lia.
  - intros m Hm. eexists. split; [|reflexivity].
    cbv beta. rewrite !getitem_last by lia. rewrite Ea. cbn [bind].
    rewrite Eb. reflexivity.
  - exists ff, al, bl. repeat split; try assumption; [lia|].
    intros m Hm. destruct (Hf m) as (v & Ev & ->); [lia|]. exact Ev.
Qed.

(** The shared lines run without raising on any non-empty series when
    [1 - alpha] is not zero, and their lists satisfy [des_spec]. *)
Lemma des_brown_spec alpha y :
  1 <= len y ->
  is_zero (of_int 1 - alpha)%fl = false ->
  exists s1 s2 la lb fc,
    des_brown alpha y = Ok (s1, s2, la, lb, fc, evaluate y fc) /\
    des_spec alpha y s1 s2 la lb fc.
Proof.
  intros Hn Hz. unfold des_brown.
  destruct (@smoothing_spec alpha y Hn)
    as (s1 & s2 & Es & L1 & L2 & H1 & H2 & Hr).
  destruct (@level_spec y s1 s2 L1 L2) as (la & Ea & La & Ha).
  destruct (@slope_spec alpha y s1 s2 Hz L1 L2) as (lb & Eb & Lb & Hb).
  destruct (@in_sample_spec y la lb Hn La Lb) as (fc & Ef & Lf & F0 & Hf).
  rewrite Es. cbn [bind]. rewrite Ea. cbn [bind].
  rewrite Eb. cbn [bind]. rewrite Ef. cbn [bind].
  exists s1, s2, la, lb, fc. split; [reflexivity|].
  constructor; try assumption.
  intros i Hi.
  destruct (Ha i Hi) as (v1 & v2 & E1 & E2 & Ai).
  destruct (Hb i Hi) as (w1 & w2 & E1' & E2' & Bi).
  rewrite E1 in E1'. rewrite E2 in E2'. inversion E1'; inversion E2'; subst.
  exists w1, w2. do 2 eexists. repeat split; eassumption.
Qed.

(** An empty series raises at the seed [y[0]]. *)
Lemma des_brown_empty alpha : des_brown alpha [] = Raise IndexError.
Proof. reflexivity. Qed.

(** With [1 - alpha == 0.0] the run stops at the slope, after both
    smoothing passes and the level were computed. *)
Lemma des_brown_zero_divisor alpha y :
  1 <= len y ->
  is_zero (of_int 1 - alpha)%fl = true ->
  des_brown alpha y = Raise ZeroDivisionError.
Proof.
  intros Hn Hz. unfold des_brown.
  destruct (@smoothing_spec alpha y Hn) as (s1 & s2 & Es & L1 & L2 & _).
  destruct (@level_spec y s1 s2 L1 L2) as (la & Ea & _).
  rewrite Es. cbn [bind]. rewrite Ea. cbn [bind].
  rewrite slope_raises by assumption. reflexivity.
Qed.

End Specification.

(** ** The two pages *)

Lemma len_map {A B : Type} (f : A -> B) (l : list A) : len (map f l) = len l.
Proof. unfold len. now rewrite length_map. Qed.



Section Pages.
Context {T : Type} {F : Float T}.

(** [deploy2.py] runs to its end on a non-empty frame when [1 - alpha] is
    not zero; its lists are those of the shared lines, its years follow the
    last year read. *)
Lemma deploy2_runs (df : frame T) (alpha : T) :
  1 <= len df ->
  is_zero (of_int 1 - alpha)%fl = false ->
  exists s1 s2 la lb fc ff last,
    Deploy2.modeling_page df alpha =
      Ok {| S1 := s1; S2 := s2; a := la; b := lb; forecast := fc;
            scores := evaluate (map snd df) fc;
            future_years := range (last + 1) (last + 6);
            future_forecast := ff;
            df_future := combine (range (last + 1) (last + 6)) ff |} /\
    des_spec alpha (map snd df) s1 s2 la lb fc /\
    project la lb 5 = Ok ff /\
    getitem (map fst df) (len df - 1) = Ok last.
Proof.
  intros Hn Hz. unfold Deploy2.modeling_page.
  destruct (@des_brown_spec T F alpha (map snd df))
    as (s1 & s2 & la & lb & fc & Er & Hs);
    [now rewrite len_map | exact Hz |].
  pose proof (spec_len_a Hs) as La. pose proof (spec_len_b Hs) as Lb.
  rewrite len_map in La, Lb.
  destruct (@project_spec T F la lb 5) as (ff & al & bl & Ef & _);
    [lia | lia | lia |].
  destruct (@getitem_in_range _ (map fst df) (len df - 1)) as [last El];
    [rewrite len_map; lia|].
  rewrite Er. cbn [bind]. rewrite getitem_last by (rewrite len_map; lia).
  rewrite len_map, El. cbn [bind]. rewrite Ef. cbn [bind].
  exists s1, s2, la, lb, fc, ff, last. auto.
Qed.

(** [deploy1.py] likewise; its years start at [start_year]. *)
Lemma deploy1_runs (df : frame T) (alpha : T) :
  1 <= len df ->
  is_zero (of_int 1 - alpha)%fl = false ->
  exists s1 s2 la lb fc ff,
    Deploy1.modeling_page df alpha =
      Ok {| S1 := s1; S2 := s2; a := la; b := lb; forecast := fc;
            scores := evaluate (map snd df) fc;
            future_years := range 2022 2027;
            future_forecast := ff;
            df_future := combine (range 2022 2027) ff |} /\
    des_spec alpha (map snd df) s1 s2 la lb fc /\
    project la lb 5 = Ok ff.
Proof.
  intros Hn Hz. unfold Deploy1.modeling_page.
  destruct (@des_brown_spec T F alpha (map snd df))
    as (s1 & s2 & la & lb & fc & Er & Hs);
    [now rewrite len_map | exact Hz |].
  pose proof (spec_len_a Hs) as La. pose proof (spec_len_b Hs) as Lb.
  rewrite len_map in La, Lb.
  destruct (@project_spec T F la lb 5) as (ff & al & bl & Ef & _);
    [lia | lia | lia |].
  rewrite Er. cbn [bind].
  change Deploy1.n_forecast with 5. rewrite Ef. cbn [bind].
  exists s1, s2, la, lb, fc, ff. auto.
Qed.

End Pages.

(** ** The claims that hold for any arithmetic

    The smoothing factor enters the run through one test only: the divisor
    [1 - alpha] of the slope must not compare equal to zero, which is the
    case for every [alpha] in (0,1).  The theorems of this part are stated
    under that condition and hold for binary64 and for the exact arithmetic
    alike, every [+], [-], [*] and [/] being the operation of the arithmetic
    at hand. *)

Section AnyArithmetic.
Context {T : Type} {F : Float T}.

Lemma page_runs (p : page) (df : frame T) (alpha : T) :
  1 <= len df ->
  is_zero (of_int 1 - alpha)%fl = false ->
  exists out,
    modeling_page p df alpha = Ok out /\
    des_spec alpha (map snd df)
             (S1 out) (S2 out) (a out) (b out) (forecast out) /\
    scores out = evaluate (map snd df) (forecast out) /\
    project (a out) (b out) 5 = Ok (future_forecast out) /\
    df_future out = combine (future_years out) (future_forecast out).
Proof.
  intros Hn Hz. destruct p; cbn [modeling_page].
  - destruct (@deploy2_runs T F df alpha Hn Hz)
      as (s1 & s2 & la & lb & fc & ff & last & E & Hs & Ef & _).
    eexists. split; [exact E|]. cbn. auto.
  - destruct (@deploy1_runs T F df alpha Hn Hz)
      as (s1 & s2 & la & lb & fc & ff & E & Hs & Ef).
    eexists. split; [exact E|]. cbn. auto.
Qed.

End AnyArithmetic.

(** C1. On every series of at least two observations, with [1 - alpha] not
    zero (every [alpha] in (0,1)), each page runs to its end and its lists
    satisfy, exactly in the arithmetic of the run: for [t] in [1..n-1],
    [S1[t] = alpha*y[t] + (1-alpha)*S1[t-1]] and
    [S2[t] = alpha*S1[t] + (1-alpha)*S2[t-1]]; for [i] in [0..n-1],
    [a[i] = 2*S1[i] - S2[i]] and [b[i] = (alpha/(1-alpha))*(S1[i] - S2[i])]. *)
Theorem recurrence_and_coefficients
        (T : Type) (F : Float T) (p : page) (df : frame T) (alpha : T) :
  2 <= len df ->
  is_zero (of_int 1 - alpha)%fl = false ->
  exists out,
    modeling_page p df alpha = Ok out /\
    (forall t, 1 <= t < len df ->
       recurrence_at alpha (map snd df) (S1 out) (S2 out) t) /\
    (forall i, 0 <= i < len df ->
       coefficients_at alpha (S1 out) (S2 out) (a out) (b out) i).
Proof.
  intros Hn Hz.
  destruct (@page_runs T F p df alpha) as (out & E & Hs & _); [lia | exact Hz |].
  exists out. split; [exact E|]. split.
  - intros t Ht. apply (spec_recurrence Hs). now rewrite len_map.
  - intros i Hi. apply (spec_coefficients Hs). now rewrite len_map.
Qed.

Lemma recurrence_and_coefficients_witness :
  exists out,
    modeling_page deploy2 example_frame 0.8%float = Ok out /\
    (forall t, 1 <= t < len example_frame ->
       recurrence_at 0.8%float (map snd example_frame) (S1 out) (S2 out) t) /\
    (forall i, 0 <= i < len example_frame ->
       coefficients_at 0.8%float (S1 out) (S2 out) (a out) (b out) i).
Proof.
  apply (@recurrence_and_coefficients float binary64 deploy2 example_frame
           0.8%float).
  - vm_compute. discriminate.
  - vm_compute. reflexivity.
Defined.

(** C2. On every non-empty series, with [1 - alpha] not zero (every [alpha]
    in (0,1)), both smoothing passes start from the first observation:
    [S1[0] = y[0]] and [S2[0] = y[0]]. *)
Theorem seeded_with_first_observation
        (T : Type) (F : Float T) (p : page) (df : frame T) (alpha : T) :
  1 <= len df ->
  is_zero (of_int 1 - alpha)%fl = false ->
  exists out y0,
    modeling_page p df alpha = Ok out /\
    getitem (map snd df) 0 = Ok y0 /\
    getitem (S1 out) 0 = Ok y0 /\
    getitem (S2 out) 0 = Ok y0.
Proof.
  intros Hn Hz.
  destruct (@page_runs T F p df alpha) as (out & E & Hs & _);
    [exact Hn | exact Hz |].
  destruct (@getitem_in_range _ (map snd df) 0) as [y0 E0];
    [rewrite len_map; lia|].
  exists out, y0. split; [exact E|]. split; [exact E0|].
  rewrite (spec_seed_S1 Hs), (spec_seed_S2 Hs). auto.
Qed.

Lemma seeded_with_first_observation_witness :
  exists out y0,
    modeling_page deploy1 example_frame 0.8%float = Ok out /\
    getitem (map snd example_frame) 0 = Ok y0 /\
    getitem (S1 out) 0 = Ok y0 /\
    getitem (S2 out) 0 = Ok y0.
Proof.
  apply (@seeded_with_first_observation float binary64 deploy1 example_frame
           0.8%float).
  - vm_compute. discriminate.
  - vm_compute. reflexivity.
Defined.

(** C3. On every series of at least two observations, with [1 - alpha] not
    zero (every [alpha] in (0,1)), the in-sample forecast has as many
    entries as the series, its entry 0 is [np.nan] (not a number), and for
    [i] in [1..n-1] its entry [i] is [a[i-1] + b[i-1]]. *)
Theorem in_sample_forecast
        (T : Type) (F : Float T) (p : page) (df : frame T) (alpha : T) :
  2 <= len df ->
  is_zero (of_int 1 - alpha)%fl = false ->
  exists out,
    modeling_page p df alpha = Ok out /\
    len (forecast out) = len df /\
    (exists v0, getitem (forecast out) 0 = Ok v0 /\ is_nan v0 = true) /\
    forall i, 1 <= i < len df ->
      exists ai bi,
        getitem (a out) (i - 1) = Ok ai /\
        getitem (b out) (i - 1) = Ok bi /\
        getitem (forecast out) i = Ok (ai + bi)%fl.
Proof.
  intros Hn Hz.
  destruct (@page_runs T F p df alpha) as (out & E & Hs & _); [lia | exact Hz |].
  exists out. split; [exact E|].
  split; [rewrite (spec_len_forecast Hs); apply len_map|].
  split; [exists nan; split; [exact (spec_forecast0 Hs) | apply nan_is_nan]|].
  intros i Hi. apply (spec_forecast Hs). now rewrite len_map.
Qed.

Lemma in_sample_forecast_witness :
  exists out,
    modeling_page deploy2 example_frame 0.8%float = Ok out /\
    len (forecast out) = len example_frame /\
    (exists v0, getitem (forecast out) 0 = Ok v0 /\ is_nan v0 = true) /\
    forall i, 1 <= i < len example_frame ->
      exists ai bi,
        getitem (a out) (i - 1) = Ok ai /\
        getitem (b out) (i - 1) = Ok bi /\
        getitem (forecast out) i = Ok (ai + bi)%fl.
Proof.
  apply (@in_sample_forecast float binary64 deploy2 example_frame 0.8%float).
  - vm_compute. discriminate.
  - vm_compute. reflexivity.
Defined.

Section Projection.
Context {T : Type} {F : Float T}.


(** The table a page shows is the table at horizon 5. *)
Lemma page_table (p : page) (df : frame T) (alpha : T) :
  1 <= len df ->
  is_zero (of_int 1 - alpha)%fl = false ->
  exists out last,
    modeling_page p df alpha = Ok out /\
    len (a out) = len df /\ len (b out) = len df /\
    getitem (map fst df) (len df - 1) = Ok last /\
    future_table (first_year p last) 5 (a out) (b out) = Ok (df_future out).
Proof.
  intros Hn Hz.
  destruct (@getitem_in_range _ (map fst df) (len df - 1)) as [last El];
    [rewrite len_map; lia|].
  destruct p; cbn [modeling_page first_year].
  - destruct (@deploy2_runs T F df alpha Hn Hz)
      as (s1 & s2 & la & lb & fc & ff & last' & E & Hs & Ef & El').
    rewrite El in El'. inversion El'; subst last'.
    eexists. exists last. split; [exact E|]. cbn.
    rewrite (spec_len_a Hs), (spec_len_b Hs), len_map.
    repeat split; try assumption.
    unfold future_table. rewrite Ef. cbn [bind].
    replace (last + 1 + 5) with (last + 6) by lia. reflexivity.
  - destruct (@deploy1_runs T F df alpha Hn Hz)
      as (s1 & s2 & la & lb & fc & ff & E & Hs & Ef).
    eexists. exists last. split; [exact E|]. cbn.
    rewrite (spec_len_a Hs), (spec_len_b Hs), len_map.
    repeat split; try assumption.
    unfold future_table. rewrite Ef. reflexivity.
Qed.

End Projection.



(** ** The exact arithmetic: claims that rest on the laws of the reals *)

Lemma getitem_In {A : Type} (l : list A) (i : Z) (x : A) :
  getitem l i = Ok x -> In x l.
Proof.
  unfold getitem.
  destruct ((0 <=? (if i <? 0 then i + len l else i))
            && ((if i <? 0 then i + len l else i) <? len l)); [|discriminate].
  destruct (nth_error l _) as [v|] eqn:E; [|discriminate].
  intros H; inversion H; subst. eapply nth_error_In; eauto.
Qed.


Section Exact.
Local Open Scope R_scope.

(** For [alpha] in (0,1) the divisor [1 - alpha] is not zero. *)
Lemma unit_interval_divisor (r : R) :
  0 < r < 1 -> is_zero (of_int 1 - Fin r)%fl = false.
Proof.
  intros Hr. cbn. unfold Rzero.
  destruct (Req_dec_T (1 - r) 0) as [E|_]; [lra | reflexivity].
Qed.


Lemma Rzero_false (r : R) : r <> 0 -> Rzero r = false.
Proof. intros H. unfold Rzero. now destruct (Req_dec_T r 0). Qed.



End Exact.

Section ExactClaims.
Local Open Scope R_scope.

Lemma exact_page_runs (p : page) (df : frame xreal) (r : R) :
  (1 <= len df)%Z -> 0 < r < 1 ->
  exists out,
    modeling_page p df (Fin r) = Ok out /\
    des_spec (Fin r) (map snd df)
             (S1 out) (S2 out) (a out) (b out) (forecast out) /\
    scores out = evaluate (map snd df) (forecast out).
Proof.
  intros Hn Hr.
  destruct (@page_runs xreal exact p df (Fin r) Hn (unit_interval_divisor Hr))
    as (out & E & Hs & Hm & _).
  exists out. auto.
Qed.

End ExactClaims.






(** In binary64 the worked example shows the same: its first forecast is
    its first observation, bit for bit. *)
Example first_forecast_binary64 :
  forall p : page,
  exists out,
    modeling_page p example_frame 0.8%float = Ok out /\
    getitem (forecast out) 1 = getitem (map snd example_frame) 0.
Proof.
  intros [|]; eexists; split; vm_compute; reflexivity.
Qed.

(** *** Finite lists as lists of reals *)

Section FiniteLists.
Local Open Scope R_scope.










End FiniteLists.

Section ExactEvaluation.
Local Open Scope R_scope.



End ExactEvaluation.



(** *** A zero among the actual values *)

Section ZeroActual.
Local Open Scope R_scope.







End ZeroActual.




(** At every step of the slider the divisor [1 - alpha] is not zero in
    binary64. *)
Lemma slider_step_divisor (k : Z) :
  10 <= k <= 90 -> is_zero (of_int 1 - slider_step k)%fl = false.
Proof.
  intros Hk.
  assert (All : forallb (fun k => negb (is_zero (of_int 1 - slider_step k)%fl))
                        (range 10 91) = true) by (vm_compute; reflexivity).
  rewrite forallb_forall in All.
  apply negb_true_iff, All. unfold range.
  apply in_map_iff. exists (Z.to_nat (k - 10)). split; [lia|].
  apply in_seq. lia.
Qed.

(** C7, as the code has it.  The pages check neither [alpha] nor the length
    of the series; a run fails only where Python does: an empty series
    raises [IndexError] at the seed [y[0]], before any smoothing; on a
    non-empty series [1 - alpha == 0] (that is [alpha = 1]) raises
    [ZeroDivisionError] at the slope, after both smoothing passes; every
    other run completes, a series of one observation included.  The slider
    hands over values in [0.1, 0.9] only, all inside (0,1), for which the
    run on a non-empty series always completes (over the reals for every
    value in that range, in binary64 for every step of the slider). *)
Theorem page_failures :
  (forall (T : Type) (F : Float T) (p : page) (alpha : T),
     smoothing alpha [] = Raise IndexError /\
     modeling_page p [] alpha = Raise IndexError) /\
  (forall (T : Type) (F : Float T) (p : page) (df : frame T) (alpha : T),
     1 <= len df ->
     is_zero (of_int 1 - alpha)%fl = true ->
     (exists s1 s2, smoothing alpha (map snd df) = Ok (s1, s2)) /\
     modeling_page p df alpha = Raise ZeroDivisionError) /\
  (forall (T : Type) (F : Float T) (p : page) (df : frame T) (alpha : T),
     1 <= len df ->
     is_zero (of_int 1 - alpha)%fl = false ->
     exists out, modeling_page p df alpha = Ok out) /\
  (forall (p : page) (df : frame xreal) (r : R),
     1 <= len df ->
     slider_value r ->
     (0 < r < 1)%R /\ exists out, modeling_page p df (Fin r) = Ok out) /\
  (forall (p : page) (df : frame float) (k : Z),
     1 <= len df ->
     10 <= k <= 90 ->
     exists out, modeling_page p df (slider_step k) = Ok out).
Proof.
  repeat split.
  - destruct p; reflexivity.
  - destruct (@smoothing_spec T F alpha (map snd df))
      as (s1 & s2 & Es & _); [now rewrite len_map|]. eauto.
  - assert (E : des_brown alpha (map snd df) = Raise ZeroDivisionError)
      by (apply des_brown_zero_divisor; [now rewrite len_map | assumption]).
    destruct p; cbn [modeling_page];
      [unfold Deploy2.modeling_page | unfold Deploy1.modeling_page];
      rewrite E; reflexivity.
  - intros T F p df alpha Hn Hz.
    destruct (@page_runs T F p df alpha Hn Hz) as (out & E & _). eauto.
  - unfold slider_value, slider_min, slider_max in *. lra.
  - unfold slider_value, slider_min, slider_max in *. lra.
  - destruct (@exact_page_runs p df r) as (out & E & _); [assumption | |].
    + unfold slider_value, slider_min, slider_max in *. lra.
    + eauto.
  - intros p df k Hn Hk.
    destruct (@page_runs float binary64 p df (slider_step k) Hn
                (slider_step_divisor Hk)) as (out & E & _).
    eauto.
Qed.

Lemma page_failures_witness :
  exists out, modeling_page deploy1 [(2018, 0.60%float)] 0.8%float = Ok out.
Proof.
  apply (proj1 (proj2 (proj2 page_failures)) float binary64 deploy1
           [(2018, 0.60%float)] 0.8%float).
  - vm_compute. discriminate.
  - vm_compute. reflexivity.
Defined.

(** C7 as stated fails: in binary64 each page completes on a series of one
    observation, and on the example series with [alpha] 0, -0.1 and 1.5;
    with [alpha = 1] it raises [ZeroDivisionError], not a parameter error. *)
Lemma nothing_is_rejected :
  (exists out,
     modeling_page deploy2 [(2018, 0.60%float)] 0.8%float = Ok out) /\
  (exists out,
     modeling_page deploy1 [(2018, 0.60%float)] 0.8%float = Ok out) /\
  (exists out, modeling_page deploy2 example_frame 0%float = Ok out) /\
  (exists out, modeling_page deploy2 example_frame (-0.1)%float = Ok out) /\
  (exists out, modeling_page deploy2 example_frame 1.5%float = Ok out) /\
  modeling_page deploy2 example_frame 1%float = Raise ZeroDivisionError.
Proof.
  repeat split; try eexists; vm_compute; reflexivity.
Qed.

(** Reads entry 0 or 1 of the example series. *)
Ltac read_item H :=
  unfold example_frame_exact in H; cbn [map snd] in H;
  rewrite ?getitem_head, ?getitem_second in H.

(** C5.  The worked example: on the series (2018, 0.60), (2019, 0.62),
    (2020, 0.59), (2021, 0.63) with [alpha = 0.8], each page gives
    [S1[1] = 0.616], [S2[1] = 0.6128], [a[1] = 0.6192], [b[1] = 0.0128] and
    [forecast[2] = a[1] + b[1] = 0.632]: within [1e-9] in binary64, and
    exactly over the reals. *)
Theorem worked_example :
  forall p : page,
    (exists out s1 s2 a1 b1 f2,
       modeling_page p example_frame 0.8%float = Ok out /\
       getitem (S1 out) 1 = Ok s1 /\ getitem (S2 out) 1 = Ok s2 /\
       getitem (a out) 1 = Ok a1 /\ getitem (b out) 1 = Ok b1 /\
       getitem (forecast out) 2 = Ok f2 /\
       f2 = PrimFloat.add a1 b1 /\
       within_tolerance s1 0.616 = true /\
       within_tolerance s2 0.6128 = true /\
       within_tolerance a1 0.6192 = true /\
       within_tolerance b1 0.0128 = true /\
       within_tolerance f2 0.632 = true) /\
    (exists out,
       modeling_page p example_frame_exact (Fin 0.8) = Ok out /\
       getitem (S1 out) 1 = Ok (Fin 0.616) /\
       getitem (S2 out) 1 = Ok (Fin 0.6128) /\
       getitem (a out) 1 = Ok (Fin 0.6192) /\
       getitem (b out) 1 = Ok (Fin 0.0128) /\
       getitem (forecast out) 2 = Ok (Fin 0.632)).
Proof.
  intros p. split.
  - destruct p; do 6 eexists; repeat split; vm_compute; reflexivity.
  - assert (Hr : (0 < 0.8 < 1)%R) by lra.
    destruct (@exact_page_runs p example_frame_exact 0.8) as (out & E & Hs & _);
      [unfold example_frame_exact, len; cbn [length]; lia | exact Hr |].
    exists out. split; [exact E|].
    destruct (spec_recurrence Hs (t := 1))
      as (yt & p1 & v1 & p2 & v2 & Ey & Ep1 & Ev1 & Ep2 & Ev2 & D1 & D2);
      [unfold example_frame_exact, len; cbn [length map]; lia|].
    change (1 - 1) with 0 in Ep1, Ep2.
    rewrite (spec_seed_S1 Hs) in Ep1. rewrite (spec_seed_S2 Hs) in Ep2.
    assert (yt = Fin 0.62) by (read_item Ey; congruence).
    assert (p1 = Fin 0.60) by (read_item Ep1; congruence).
    assert (p2 = Fin 0.60) by (read_item Ep2; congruence).
    subst yt p1 p2.
    assert (H1 : v1 = Fin 0.616) by (rewrite D1; cbn; f_equal; lra).
    assert (H2 : v2 = Fin 0.6128) by (rewrite D2, H1; cbn; f_equal; lra).
    clear D1 D2. subst v1 v2.
    destruct (spec_coefficients Hs (i := 1))
      as (w1 & w2 & ai & bi & E1 & E2 & Ea & Eb & Da & Db);
      [unfold example_frame_exact, len; cbn [length map]; lia|].
    assert (w1 = Fin 0.616) by congruence.
    assert (w2 = Fin 0.6128) by congruence. subst w1 w2.
    assert (Ha : ai = Fin 0.6192) by (rewrite Da; cbn; f_equal; lra).
    assert (Hb : bi = Fin 0.0128).
    { rewrite Db. cbn. rewrite Rzero_false by lra. cbn. f_equal. lra. }
    clear Da Db. subst ai bi.
    destruct (spec_forecast Hs (i := 2)) as (a1 & b1 & Ea1 & Eb1 & Ef);
      [unfold example_frame_exact, len; cbn [length map]; lia|].
    change (2 - 1) with 1 in Ea1, Eb1.
    assert (a1 = Fin 0.6192) by congruence.
    assert (b1 = Fin 0.0128) by congruence. subst a1 b1.
    repeat split; try assumption.
    rewrite Ef. cbn. do 2 f_equal. lra.
Qed.

(** * Further properties of the two files *)

(** ** The two pages side by side *)

Section TwoPages.
Context {T : Type} {F : Float T}.

(** The shared lines succeed on non-empty series only. *)
Lemma des_brown_Ok_nonempty (alpha : T) (y : list T) r :
  des_brown alpha y = Ok r -> 1 <= len y.
Proof.
  destruct y as [|y0 y']; [discriminate|].
  intros _. rewrite len_cons. pose proof (len_nonneg y'). lia.
Qed.

End TwoPages.

(** X1.  On every frame and every [alpha] the two pages end alike: either
    both raise the same exception, or both complete with the same [S1],
    [S2], [a], [b], in-sample forecast, error measures and future values;
    only the forecast years differ. *)
Theorem pages_differ_only_in_years
        (T : Type) (F : Float T) (df : frame T) (alpha : T) :
  map_result forecast_part (Deploy2.modeling_page df alpha)
  = map_result forecast_part (Deploy1.modeling_page df alpha).
Proof.
  unfold Deploy2.modeling_page, Deploy1.modeling_page.
  destruct (des_brown alpha (map snd df))
    as [[[[[[s1 s2] la] lb] fc] m]|e] eqn:E; cbn [bind]; [|reflexivity].
  apply des_brown_Ok_nonempty in E. rewrite len_map in E.
  destruct (@getitem_in_range _ (map fst df) (len df - 1)) as [last El];
    [rewrite len_map; lia|].
  rewrite getitem_last by (rewrite len_map; lia).
  rewrite len_map, El. cbn [bind].
  change Deploy1.n_forecast with 5.
  destruct (project la lb 5) as [ff|e]; reflexivity.
Qed.

(** X2.  On a non-empty frame, with [1 - alpha] not zero, the two sequences
    a page hands to the plot have the same length, the number of rows plus
    5, and the plotted forecast starts with [nan]. *)
Theorem plot_sequences_align
        (T : Type) (F : Float T) (p : page) (df : frame T) (alpha : T) :
  1 <= len df ->
  is_zero (of_int 1 - alpha)%fl = false ->
  exists out,
    modeling_page p df alpha = Ok out /\
    len (plot_years df out) = len df + 5 /\
    len (plot_values out) = len df + 5 /\
    getitem (plot_values out) 0 = Ok nan.
Proof.
  intros Hn Hz.
  destruct (@page_table T F p df alpha Hn Hz)
    as (out & last & E & La & Lb & El & Et).
  destruct (@page_runs T F p df alpha Hn Hz)
    as (out' & E' & Hs & _ & Ep & Ed).
  rewrite E in E'. inversion E'; subst out'. clear E'.
  destruct (@project_spec T F (a out) (b out) 5)
    as (ff & al & bl & Ef & _ & _ & Lf & _); [lia | lia | lia |].
  rewrite Ep in Ef. inversion Ef; subst ff. clear Ef.
  assert (Ly : len (future_years out) = 5).
  { destruct p; cbn [modeling_page] in E.
    - destruct (@deploy2_runs T F df alpha Hn Hz)
        as (s1 & s2 & la & lb & fc & ff & l' & E2 & _).
      rewrite E in E2. inversion E2; subst out. cbn [future_years].
      rewrite len_range; lia.
    - destruct (@deploy1_runs T F df alpha Hn Hz)
        as (s1 & s2 & la & lb & fc & ff & E1 & _).
      rewrite E in E1. inversion E1; subst out. cbn [future_years].
      rewrite len_range; lia. }
  pose proof (spec_len_forecast Hs) as Lfc. rewrite len_map in Lfc.
  exists out. split; [exact E|].
  unfold plot_years, plot_values, len in *.
  rewrite !length_app, length_map. repeat split; try lia.
  pose proof (spec_forecast0 Hs) as F0.
  apply getitem_Ok in F0; [|lia]. apply getitem_Ok; [lia|].
  rewrite nth_error_app1; [exact F0|]. lia.
Qed.

Lemma plot_sequences_align_witness :
  exists out,
    modeling_page deploy1 example_frame 0.8%float = Ok out /\
    len (plot_years example_frame out) = len example_frame + 5 /\
    len (plot_values out) = len example_frame + 5 /\
    getitem (plot_values out) 0 = Ok nan.
Proof.
  apply (@plot_sequences_align float binary64 deploy1 example_frame 0.8%float).
  - vm_compute. discriminate.
  - vm_compute. reflexivity.
Defined.

(** ** Each entry depends on the observations before it *)

Section Causality.
Context {T : Type} {F : Float T}.

(** Two runs on series that share their first [k] observations share the
    first [k] entries of both smoothed lists. *)
Lemma smoothed_agree (alpha : T) (y y' s1 s2 la lb fc s1' s2' la' lb' fc'
                       : list T) (k : Z) :
  des_spec alpha y s1 s2 la lb fc ->
  des_spec alpha y' s1' s2' la' lb' fc' ->
  k <= len y -> k <= len y' ->
  (forall i, 0 <= i < k -> getitem y i = getitem y' i) ->
  forall n : nat, Z.of_nat n < k ->
    getitem s1 (Z.of_nat n) = getitem s1' (Z.of_nat n) /\
    getitem s2 (Z.of_nat n) = getitem s2' (Z.of_nat n).
Proof.
  intros Hs Hs' Hk Hk' Hy. induction n as [|n IH]; intros Hn.
  - cbn [Z.of_nat].
    rewrite (spec_seed_S1 Hs), (spec_seed_S2 Hs).
    rewrite (spec_seed_S1 Hs'), (spec_seed_S2 Hs').
    rewrite (Hy 0) by lia. auto.
  - destruct IH as [I1 I2]; [lia|].
    destruct (spec_recurrence Hs (t := Z.of_nat (S n)))
      as (yt & p1 & v1 & p2 & v2 & Ey & Ep1 & Ev1 & Ep2 & Ev2 & D1 & D2);
      [lia|].
    destruct (spec_recurrence Hs' (t := Z.of_nat (S n)))
      as (yt' & q1 & w1 & q2 & w2 & Ey' & Eq1 & Ew1 & Eq2 & Ew2 & G1 & G2);
      [lia|].
    replace (Z.of_nat (S n) - 1) with (Z.of_nat n) in * by lia.
    rewrite (Hy (Z.of_nat (S n))) in Ey by lia.
    assert (yt = yt') by congruence.
    assert (p1 = q1) by congruence.
    assert (p2 = q2) by congruence.
    subst yt' q1 q2.
    assert (v1 = w1) by congruence. subst w1.
    assert (v2 = w2) by congruence. subst w2.
    rewrite Ev1, Ev2, Ew1, Ew2. split; congruence.
Qed.

End Causality.

(** X3.  On either page, two series that agree on their first [k]
    observations (each of at least [k >= 1] rows, [1 - alpha] not zero) give
    the same [S1], [S2], [a] and [b] at every index below [k], and the same
    in-sample forecast at every index up to [k]: later observations never
    change earlier entries, and [forecast[i]] uses [y[0..i-1]] only. *)
Theorem entries_depend_on_the_past
        (T : Type) (F : Float T) (p p' : page) (df df' : frame T)
        (alpha : T) (k : Z) :
  1 <= k -> k <= len df -> k <= len df' ->
  is_zero (of_int 1 - alpha)%fl = false ->
  (forall i, 0 <= i < k ->
     getitem (map snd df) i = getitem (map snd df') i) ->
  exists out out',
    modeling_page p df alpha = Ok out /\
    modeling_page p' df' alpha = Ok out' /\
    (forall i, 0 <= i < k ->
       getitem (S1 out) i = getitem (S1 out') i /\
       getitem (S2 out) i = getitem (S2 out') i /\
       getitem (a out) i = getitem (a out') i /\
       getitem (b out) i = getitem (b out') i) /\
    (forall i, 0 <= i <= k -> i < len df -> i < len df' ->
       getitem (forecast out) i = getitem (forecast out') i).
Proof.
  intros Hk1 Hk Hk' Hz Hy.
  destruct (@page_runs T F p df alpha) as (out & E & Hs & _);
    [lia | exact Hz |].
  destruct (@page_runs T F p' df' alpha) as (out' & E' & Hs' & _);
    [lia | exact Hz |].
  exists out, out'. split; [exact E|]. split; [exact E'|].
  assert (Hsm : forall i, 0 <= i < k ->
            getitem (S1 out) i = getitem (S1 out') i /\
            getitem (S2 out) i = getitem (S2 out') i).
  { intros i Hi.
    destruct (@smoothed_agree T F alpha _ _ _ _ _ _ _ _ _ _ _ _ k Hs Hs')
      with (n := Z.to_nat i) as [A B];
      rewrite ?len_map; try lia; try assumption.
    rewrite Z2Nat.id in A, B by lia. auto. }
  assert (Hco : forall i, 0 <= i < k ->
            getitem (a out) i = getitem (a out') i /\
            getitem (b out) i = getitem (b out') i).
  { intros i Hi. destruct (Hsm i Hi) as [A B].
    destruct (spec_coefficients Hs (i := i))
      as (v1 & v2 & ai & bi & E1 & E2 & Ea & Eb & Da & Db);
      [rewrite len_map; lia|].
    destruct (spec_coefficients Hs' (i := i))
      as (w1 & w2 & ai' & bi' & G1 & G2 & Ga & Gb & Da' & Db');
      [rewrite len_map; lia|].
    assert (v1 = w1) by congruence. assert (v2 = w2) by congruence.
    subst w1 w2. rewrite Ea, Eb, Ga, Gb. subst. auto. }
  split.
  - intros i Hi. destruct (Hsm i Hi). destruct (Hco i Hi). auto.
  - intros i Hi Hl Hl'. destruct (Z.eq_dec i 0) as [->|Hne].
    + now rewrite (spec_forecast0 Hs), (spec_forecast0 Hs').
    + destruct (Hco (i - 1)) as [A B]; [lia|].
      destruct (spec_forecast Hs (i := i)) as (ai & bi & Ea & Eb & Ef);
        [rewrite len_map; lia|].
      destruct (spec_forecast Hs' (i := i)) as (ai' & bi' & Ga & Gb & Gf);
        [rewrite len_map; lia|].
      assert (ai = ai') by congruence. assert (bi = bi') by congruence.
      subst. now rewrite Ef, Gf.
Qed.

Lemma entries_depend_on_the_past_witness :
  exists out out',
    modeling_page deploy2 example_frame 0.8%float = Ok out /\
    modeling_page deploy1
      [(1990, 0.60%float); (1995, 0.62%float); (1996, 0.10%float)]
      0.8%float = Ok out' /\
    (forall i, 0 <= i < 2 ->
       getitem (S1 out) i = getitem (S1 out') i /\
       getitem (S2 out) i = getitem (S2 out') i /\
       getitem (a out) i = getitem (a out') i /\
       getitem (b out) i = getitem (b out') i) /\
    (forall i, 0 <= i <= 2 -> i < len example_frame ->
       i < len [(1990, 0.60%float); (1995, 0.62%float); (1996, 0.10%float)] ->
       getitem (forecast out) i = getitem (forecast out') i).
Proof.
  apply (@entries_depend_on_the_past float binary64 deploy2 deploy1
           example_frame
           [(1990, 0.60%float); (1995, 0.62%float); (1996, 0.10%float)]
           0.8%float 2).
  - lia.
  - vm_compute. discriminate.
  - vm_compute. discriminate.
  - vm_compute. reflexivity.
  - intros i Hi. assert (i = 0 \/ i = 1) as [-> | ->] by lia; reflexivity.
Defined.

(** ** The forecast years and the years of the data *)

(** In a frame sorted by year, as [load_data] returns it, the last year is
    the greatest. *)
Lemma sorted_last_is_max (l : list Z) (last : Z) :
  Sorted.Sorted Z.le l ->
  getitem l (len l - 1) = Ok last ->
  forall x, In x l -> x <= last.
Proof.
  intros Hs. apply Sorted.Sorted_StronglySorted in Hs;
    [|exact Z.le_trans].
  induction Hs as [|x l Hl IH Hx]; intros El z Hz; [inversion Hz|].
  destruct l as [|x' l'].
  - change (len [x] - 1) with 0 in El. rewrite getitem_head in El.
    inversion El; subst. destruct Hz as [<-|[]]. lia.
  - assert (El' : getitem (x' :: l') (len (x' :: l') - 1) = Ok last).
    { rewrite <- El. rewrite (len_cons x (x' :: l')).
      replace (len (x' :: l') + 1 - 1) with (len (x' :: l') - 1 + 1) by lia.
      rewrite getitem_tail; [reflexivity|].
      rewrite len_cons. pose proof (len_nonneg l'). lia. }
    destruct Hz as [<-|Hz].
    + rewrite Forall_forall in Hx. apply Hx. eapply getitem_In; eauto.
    + now apply IH.
Qed.




(** X5.  [deploy1.py], on a non-empty frame sorted by year, with
    [1 - alpha] not zero: the forecast years are 2022 to 2026 whatever the
    years of the data, so they all come after the data exactly when the last
    year read is before 2022. *)
Theorem fixed_years_ignore_the_data
        (T : Type) (F : Float T) (df : frame T) (alpha : T) :
  1 <= len df ->
  is_zero (of_int 1 - alpha)%fl = false ->
  Sorted.Sorted Z.le (map fst df) ->
  exists out last,
    Deploy1.modeling_page df alpha = Ok out /\
    getitem (map fst df) (-1) = Ok last /\
    future_years out = [2022; 2023; 2024; 2025; 2026] /\
    ((forall obs yr,
        In obs (map fst df) -> In yr (future_years out) -> obs < yr)
     <-> last < 2022).
Proof.
  intros Hn Hz Hsorted.
  destruct (@deploy1_runs T F df alpha Hn Hz)
    as (s1 & s2 & la & lb & fc & ff & E & _ & _).
  destruct (@getitem_in_range _ (map fst df) (len df - 1)) as [last El];
    [rewrite len_map; lia|].
  eexists. exists last. split; [exact E|]. cbn [future_years].
  split; [rewrite getitem_last by (rewrite len_map; lia);
          now rewrite len_map|].
  split; [reflexivity|].
  change (range 2022 2027) with [2022; 2023; 2024; 2025; 2026].
  split.
  - intros H. apply (H last 2022).
    + eapply getitem_In; eauto.
    + now left.
  - intros Hlast obs yr Hobs Hyr.
    assert (obs <= last).
    { apply (@sorted_last_is_max (map fst df) last Hsorted); [|exact Hobs].
      now rewrite len_map. }
    cbn [In] in Hyr. lia.
Qed.

Lemma fixed_years_ignore_the_data_witness :
  exists out last,
    Deploy1.modeling_page
      [(2021, 0.60%float); (2022, 0.62%float); (2023, 0.59%float)]
      0.8%float = Ok out /\
    getitem
      (map fst [(2021, 0.60%float); (2022, 0.62%float); (2023, 0.59%float)])
      (-1) = Ok last /\
    future_years out = [2022; 2023; 2024; 2025; 2026] /\
    ((forall obs yr,
        In obs
           (map fst
              [(2021, 0.60%float); (2022, 0.62%float); (2023, 0.59%float)]) ->
        In yr (future_years out) -> obs < yr)
     <-> last < 2022).
Proof.
  apply (@fixed_years_ignore_the_data float binary64
           [(2021, 0.60%float); (2022, 0.62%float); (2023, 0.59%float)]
           0.8%float).
  - vm_compute. discriminate.
  - vm_compute. reflexivity.
  - cbn [map fst]. repeat constructor; lia.
Defined.

(** ** Exact arithmetic: where the smoothed values lie *)

Section Range.
Local Open Scope R_scope.


End Range.



(** ** Exact arithmetic: a series that does not move *)

Section Constant.
Local Open Scope R_scope.





End Constant.



(** ** Exact arithmetic: more on the error measures *)

Section Measures.
Local Open Scope R_scope.





End Measures.





Lemma Rzero_true : Rzero 0 = true.
Proof. unfold Rzero. destruct (Req_dec_T 0 0) as [_|H]; [reflexivity | now elim H]. Qed.

(** A forecast list of one entry is [[nan]]. *)
Lemma single_forecast (T : Type) (F : Float T) (fc : list T) :
  len fc = 1 -> getitem fc 0 = Ok nan -> fc = [nan].
Proof.
  intros L E. destruct fc as [|x [|x' fc]]; try discriminate L.
  - rewrite getitem_head in E. congruence.
  - rewrite !len_cons in L. pose proof (len_nonneg fc). lia.
Qed.

(** X10.  A series of one observation is not refused: the run completes,
    the in-sample forecast is [[nan]], and the four error measures, means
    over the empty arrays [y[1:]] and [forecast[1:]], are all [nan]: over
    the reals for every [alpha] in (0,1), in binary64 for every step of the
    slider. *)
Theorem single_observation_measures_are_nan :
  (forall (p : page) (year : Z) (v : xreal) (r : R),
     (0 < r < 1)%R ->
     exists out,
       modeling_page p [(year, v)] (Fin r) = Ok out /\
       forecast out = [NaN] /\
       scores out = {| mae := NaN; mse := NaN; rmse := NaN; mape := NaN |}) /\
  (forall (p : page) (year : Z) (v : float) (k : Z),
     10 <= k <= 90 ->
     exists out,
       modeling_page p [(year, v)] (slider_step k) = Ok out /\
       len (forecast out) = 1 /\
       is_nan (mae (scores out)) = true /\
       is_nan (mse (scores out)) = true /\
       is_nan (rmse (scores out)) = true /\
       is_nan (mape (scores out)) = true).
Proof.
  split.
  - intros p year v r Hr.
    destruct (@exact_page_runs p [(year, v)] r) as (out & E & Hs & Hm);
      [reflexivity | exact Hr |].
    assert (Hfc : forecast out = [NaN]).
    { apply (@single_forecast xreal exact).
      - now rewrite (spec_len_forecast Hs).
      - exact (spec_forecast0 Hs). }
    exists out. split; [exact E|]. split; [exact Hfc|].
    rewrite Hm, Hfc. unfold evaluate, np_mean, np_sum. cbn.
    rewrite Rzero_true. reflexivity.
  - intros p year v k Hk.
    destruct (@page_runs float binary64 p [(year, v)] (slider_step k))
      as (out & E & Hs & Hm & _);
      [reflexivity | now apply slider_step_divisor |].
    assert (Hfc : forecast out = [nan]).
    { apply (@single_forecast float binary64).
      - now rewrite (spec_len_forecast Hs).
      - exact (spec_forecast0 Hs). }
    exists out. split; [exact E|]. rewrite Hm, Hfc.
    repeat split; vm_compute; reflexivity.
Qed.

Lemma single_observation_measures_are_nan_witness :
  (exists out,
     modeling_page deploy1 [(2018, Fin 0.6)] (Fin 0.8) = Ok out /\
     forecast out = [NaN] /\
     scores out = {| mae := NaN; mse := NaN; rmse := NaN; mape := NaN |}) /\
  (exists out,
     modeling_page deploy2 [(2018, 0.6%float)] (slider_step 80) = Ok out /\
     len (forecast out) = 1 /\
     is_nan (mae (scores out)) = true /\
     is_nan (mse (scores out)) = true /\
     is_nan (rmse (scores out)) = true /\
     is_nan (mape (scores out)) = true).
Proof.
  split.
  - apply (proj1 single_observation_measures_are_nan deploy1 2018 (Fin 0.6) 0.8%R).
    lra.
  - apply (proj2 single_observation_measures_are_nan deploy2 2018 0.6%float 80).
    lia.
Defined.

(** ** [load_data]: the columns it finds *)

Lemma prefix_spec (needle c : String.string) :
  String.prefix needle c = true <-> exists v, c = String.append needle v.
Proof.
  revert c. induction needle as [|ch needle IH]; intros c.
  - split; [intros _; exists c; reflexivity
           | intros _; destruct c; reflexivity].
  - destruct c as [|ch' c]; cbn.
    + split; [discriminate | intros [v Hv]; discriminate Hv].
    + destruct (Ascii.ascii_dec ch ch') as [<-|Hne].
      * rewrite IH. split; intros [v Hv]; exists v; congruence.
      * split; [discriminate | intros [v Hv]; congruence].
Qed.

(** [contains] decides the substring relation. *)
Lemma contains_spec (needle c : String.string) :
  contains needle c = true <-> occurs needle c.
Proof.
  unfold occurs. induction c as [|ch c IH]; cbn [contains].
  - destruct (String.prefix needle String.EmptyString) eqn:P.
    + split; [|reflexivity]. intros _.
      apply prefix_spec in P. destruct P as [v Hv].
      exists String.EmptyString, v. exact Hv.
    + split; [discriminate|]. intros (u & v & Huv).
      destruct u; [|discriminate Huv]. cbn in Huv.
      assert (String.prefix needle String.EmptyString = true)
        by (apply prefix_spec; eauto).
      congruence.
  - destruct (String.prefix needle (String.String ch c)) eqn:P.
    + split; [|reflexivity]. intros _.
      apply prefix_spec in P. destruct P as [v Hv].
      exists String.EmptyString, v. exact Hv.
    + rewrite IH. split.
      * intros (u & v & ->). exists (String.String ch u), v. reflexivity.
      * intros (u & v & Huv). destruct u as [|ch' u].
        -- cbn in Huv.
           assert (String.prefix needle (String.String ch c) = true)
             by (apply prefix_spec; eauto).
           congruence.
        -- cbn in Huv. injection Huv as _ ->. eauto.
Qed.

Lemma contains_false (needle c : String.string) :
  contains needle c = false <-> ~ occurs needle c.
Proof.
  rewrite <- contains_spec. destruct (contains needle c); split;
    congruence.
Qed.

(** A loop that stops at its first hit finds nothing exactly when no entry
    passes the test. *)
Lemma first_column_None (test : String.string -> bool)
      (columns : list String.string) :
  first_column test columns = None <->
  forall c, In c columns -> test c = false.
Proof.
  induction columns as [|c0 rest IH]; cbn.
  - split; [intros _ c [] | reflexivity].
  - destruct (test c0) eqn:E.
    + split; [discriminate|]. intros H.
      rewrite (H c0) in E by now left. discriminate.
    + rewrite IH. split.
      * intros H c [<-|Hc]; auto.
      * intros H c Hc. apply H. now right.
Qed.

(** It returns the leftmost entry that passes the test. *)
Lemma first_column_Some (test : String.string -> bool)
      (columns : list String.string) (c : String.string) :
  first_column test columns = Some c <->
  exists pre post,
    columns = pre ++ c :: post /\ test c = true /\
    forall c', In c' pre -> test c' = false.
Proof.
  induction columns as [|c0 rest IH]; cbn.
  - split; [discriminate|]. intros (pre & post & H & _).
    now destruct pre.
  - destruct (test c0) eqn:E.
    + split.
      * intros [= <-]. exists [], rest. repeat split; [exact E | intros c' []].
      * intros (pre & post & H & Hc & Hpre). destruct pre as [|c1 pre].
        -- cbn in H. congruence.
        -- cbn in H. injection H as <- _.
           rewrite (Hpre c0) in E by now left. discriminate.
    + rewrite IH. split.
      * intros (pre & post & -> & Hc & Hpre).
        exists (c0 :: pre), post. repeat split; [exact Hc|].
        intros c' [<-|Hc']; auto.
      * intros (pre & post & H & Hc & Hpre). destruct pre as [|c1 pre].
        -- cbn in H. injection H as -> _. congruence.
        -- cbn in H. injection H as _ ->.
           exists pre, post. repeat split; [exact Hc|].
           intros c' Hc'. apply Hpre. now right.
Qed.

Lemma names_year_false (c : String.string) :
  names_year c = false <->
  ~ occurs "year"%string c /\ ~ occurs "tahun"%string c /\ ~ occurs "time"%string c.
Proof.
  unfold names_year. rewrite !orb_false_iff, !contains_false. tauto.
Qed.

(** X11.  [load_data] stops with its error message exactly when no column
    name has ["year"], ["tahun"] or ["time"] as a substring, or no column
    name has ["gini"] as a substring. *)
Theorem load_data_stops_without_a_match (columns : list String.string) :
  detect_columns columns = None <->
  (forall c, In c columns ->
     ~ occurs "year"%string c /\ ~ occurs "tahun"%string c /\ ~ occurs "time"%string c) \/
  (forall c, In c columns -> ~ occurs "gini"%string c).
Proof.
  unfold detect_columns, year_col, gini_col.
  destruct (first_column names_year columns) as [yc|] eqn:Ey;
    destruct (first_column names_gini columns) as [gc|] eqn:Eg.
  - split; [discriminate|]. intros [H|H].
    + apply first_column_Some in Ey.
      destruct Ey as (pre & post & -> & Hy & _).
      assert (Hf : names_year yc = false).
      { apply names_year_false, H, in_or_app. right. now left. }
      congruence.
    + apply first_column_Some in Eg.
      destruct Eg as (pre & post & -> & Hg & _).
      assert (Hf : names_gini gc = false).
      { apply contains_false, H, in_or_app. right. now left. }
      congruence.
  - split; [intros _|reflexivity]. right. intros c Hc.
    apply contains_false. exact (proj1 (first_column_None _ _) Eg c Hc).
  - split; [intros _|reflexivity]. left. intros c Hc.
    apply names_year_false. exact (proj1 (first_column_None _ _) Ey c Hc).
  - split; [intros _|reflexivity]. left. intros c Hc.
    apply names_year_false. exact (proj1 (first_column_None _ _) Ey c Hc).
Qed.

(** X12.  When [load_data] goes on, the year column is the leftmost column
    whose name has one of the three year words as a substring and the Gini
    column is the leftmost whose name has ["gini"] as a substring: columns
    further right are never chosen, whatever their names. *)
Theorem leftmost_columns_are_chosen
        (columns : list String.string) (yc gc : String.string) :
  detect_columns columns = Some (yc, gc) <->
  (exists pre post,
     columns = pre ++ yc :: post /\
     (occurs "year"%string yc \/ occurs "tahun"%string yc \/ occurs "time"%string yc) /\
     forall c, In c pre ->
       ~ occurs "year"%string c /\ ~ occurs "tahun"%string c /\ ~ occurs "time"%string c) /\
  (exists pre post,
     columns = pre ++ gc :: post /\
     occurs "gini"%string gc /\
     forall c, In c pre -> ~ occurs "gini"%string c).
Proof.
  assert (Hy : first_column names_year columns = Some yc <->
    exists pre post,
      columns = pre ++ yc :: post /\
      (occurs "year"%string yc \/ occurs "tahun"%string yc \/ occurs "time"%string yc) /\
      forall c, In c pre ->
        ~ occurs "year"%string c /\ ~ occurs "tahun"%string c /\ ~ occurs "time"%string c).
  { rewrite first_column_Some.
    split; intros (pre & post & E & Hc & Hpre); exists pre, post;
      (split; [exact E|]); split.
    - unfold names_year in Hc. rewrite !orb_true_iff, !contains_spec in Hc.
      tauto.
    - intros c Hin. apply names_year_false. auto.
    - unfold names_year. rewrite !orb_true_iff, !contains_spec. tauto.
    - intros c Hin. apply names_year_false. auto. }
  assert (Hg : first_column names_gini columns = Some gc <->
    exists pre post,
      columns = pre ++ gc :: post /\ occurs "gini"%string gc /\
      forall c, In c pre -> ~ occurs "gini"%string c).
  { rewrite first_column_Some.
    split; intros (pre & post & E & Hc & Hpre); exists pre, post;
      (split; [exact E|]); split.
    - now apply contains_spec.
    - intros c Hin. apply contains_false. auto.
    - now apply contains_spec.
    - intros c Hin. apply contains_false. auto. }
  rewrite <- Hy, <- Hg. unfold detect_columns, year_col, gini_col.
  destruct (first_column names_year columns) as [yc'|];
    destruct (first_column names_gini columns) as [gc'|];
    split; try discriminate; try (intros [H1 H2]; discriminate).
  - intros [= -> ->]. auto.
  - intros [[= ->] [= ->]]. reflexivity.
Qed.

Lemma detected_in_columns (columns : list String.string)
      (yc gc : String.string) :
  detect_columns columns = Some (yc, gc) ->
  In yc columns /\ In gc columns /\
  names_year yc = true /\ names_gini gc = true.
Proof.
  unfold detect_columns, year_col, gini_col.
  destruct (first_column names_year columns) as [yc'|] eqn:Ey;
    [|discriminate].
  destruct (first_column names_gini columns) as [gc'|] eqn:Eg;
    [|discriminate].
  intros [= -> ->].
  apply first_column_Some in Ey, Eg.
  destruct Ey as (pre & post & E & Hy & _).
  destruct Eg as (pre' & post' & E' & Hg & _).
  repeat split; try assumption.
  - rewrite E. apply in_or_app. right. now left.
  - rewrite E'. apply in_or_app. right. now left.
Qed.

(** X13.  After the renaming a column labelled ["gini_disp"] always exists.
    A column labelled ["year"] exists when two different columns were
    found; when one column name passed both tests (["gini_year"], say),
    [year_col] and [gini_col] are the same key of the dict, the column
    becomes ["gini_disp"], and a column labelled ["year"] exists only if
    the file already had one of exactly that name. *)
Theorem renaming_may_leave_no_year_column
        (columns : list String.string) (yc gc : String.string) :
  detect_columns columns = Some (yc, gc) ->
  In "gini_disp"%string (rename yc gc columns) /\
  (yc <> gc -> In "year"%string (rename yc gc columns)) /\
  (yc = gc ->
   (In "year"%string (rename yc gc columns) <-> In "year"%string columns)).
Proof.
  intros H. apply detected_in_columns in H.
  destruct H as (Iy & Ig & Hy & Hg).
  assert (Hyear : "year"%string <> gc).
  { intros <-. vm_compute in Hg. discriminate. }
  repeat split.
  - unfold rename. apply in_map_iff. exists gc. split; [|exact Ig].
    unfold renaming. now rewrite String.eqb_refl.
  - intros Hne. unfold rename. apply in_map_iff. exists yc.
    split; [|exact Iy]. unfold renaming.
    apply String.eqb_neq in Hne. now rewrite Hne, String.eqb_refl.
  - subst yc. unfold rename. intros Hin. apply in_map_iff in Hin.
    destruct Hin as (c & Hc & Hin). unfold renaming in Hc.
    destruct (String.eqb c gc); [discriminate|]. now subst c.
  - subst yc. intros Hin. unfold rename. apply in_map_iff.
    exists "year"%string. split; [|exact Hin]. unfold renaming.
    apply String.eqb_neq in Hyear. now rewrite Hyear.
Qed.

Lemma renaming_may_leave_no_year_column_witness :
  In "gini_disp"%string
     (rename "gini_year"%string "gini_year"%string ["country"; "gini_year"]%string) /\
  ("gini_year"%string <> "gini_year"%string ->
   In "year"%string
      (rename "gini_year"%string "gini_year"%string ["country"; "gini_year"]%string)) /\
  ("gini_year"%string = "gini_year"%string ->
   (In "year"%string
       (rename "gini_year"%string "gini_year"%string ["country"; "gini_year"]%string) <->
    In "year"%string ["country"; "gini_year"]%string)).
Proof.
  apply (@renaming_may_leave_no_year_column
           ["country"; "gini_year"]%string "gini_year"%string "gini_year"%string).
  vm_compute. reflexivity.
Defined.
